(** * The compilation-job polling loop of [pytorch_torchvision_neo.ipynb]

    The notebook cell that invokes the Neo compilation API ends with

<<
    # Poll every 30 sec
    while True:
        response = sm_client.describe_compilation_job(CompilationJobName=compilation_job_name)
        if response['CompilationJobStatus'] == 'COMPLETED':
            break
        elif response['CompilationJobStatus'] == 'FAILED':
            raise RuntimeError('Compilation failed')
        print('Compiling ...')
        time.sleep(30)
    print('Done!')

    # Extract compiled model artifact
    compiled_model_path = response['ModelArtifacts']['S3ModelArtifacts']
>>

    This file embeds that code: Python values and exceptions, the notebook
    globals the code assigns, the calls it makes to the outside world as a
    log of events, and the remote service as the list of answers it gives to
    the successive status queries. *)

From Stdlib Require Import ZArith Ascii String List Lia.
From stdpp Require Import base option list gmap strings.
Import ListNotations.

Set Warnings "-register-all".

Open Scope string_scope.
Open Scope list_scope.

(** ** Python values *)

(** The values that occur in the responses of the service client: a response
    is a dictionary with string keys whose entries are strings, numbers,
    lists or dictionaries again. *)
Inductive value : Type :=
| VNone
| VStr (s : string)
| VInt (z : Z)
| VList (l : list value)
| VDict (d : gmap string value).

(** An exception object: its class and the arguments it was built from. *)
Record exn : Type := Exn { exn_class : string; exn_args : list value }.

Definition RuntimeError (msg : string) : exn := Exn "RuntimeError" [VStr msg].
Definition KeyError (key : string) : exn := Exn "KeyError" [VStr key].
Definition TypeError (msg : string) : exn := Exn "TypeError" [VStr msg].

(** [v == 'lit']: a string equals a string with the same characters, and a
    value of any other type is different from every string. *)
Definition py_eq_str (v : value) (lit : string) : bool :=
  match v with
  | VStr s => String.eqb s lit
  | _ => false
  end.

(** [v[key]] for a string key. *)
Definition getitem (v : value) (key : string) : exn + value :=
  match v with
  | VDict d =>
      match d !! key with
      | Some x => inr x
      | None => inl (KeyError key)
      end
  | VStr _ => inl (TypeError "string indices must be integers")
  | VList _ => inl (TypeError "list indices must be integers or slices, not str")
  | VInt _ => inl (TypeError "'int' object is not subscriptable")
  | VNone => inl (TypeError "'NoneType' object is not subscriptable")
  end.

(** ** The world outside the cell *)

(** What the cell does to the outside world, in order. *)
Inductive event : Type :=
| EvDescribe (job : string)      (* sm_client.describe_compilation_job(CompilationJobName=job) *)
| EvPrint (text : string)        (* print(text) *)
| EvSleep (secs : Z).            (* time.sleep(secs) *)

(** What the service does with one status query: the client returns the
    response dictionary, or the call raises. *)
Inductive answer : Type :=
| Returns (resp : gmap string value)
| Raises (e : exn).

(** The notebook globals the loop reads and assigns, and the log of events. *)
Record state : Type := State {
  response : value;
  compiled_model_path : value;
  log : list event
}.

(** ** Statements with effects *)

(** A statement ends normally, raises, or is blocked in a call to the
    service that has not been answered. *)
Inductive outcome (A : Type) : Type :=
| Normal (a : A)
| Raised (e : exn)
| Pending.
Arguments Normal {A} a.
Arguments Raised {A} e.
Arguments Pending {A}.

Definition M (A : Type) : Type := state -> outcome A * state.

Definition ret {A} (a : A) : M A := fun st => (Normal a, st).

Definition bind {A B} (m : M A) (k : A -> M B) : M B :=
  fun st =>
    match m st with
    | (Normal a, st') => k a st'
    | (Raised e, st') => (Raised e, st')
    | (Pending, st') => (Pending, st')
    end.

Notation "'let*' x ':=' m 'in' k" := (bind m (fun x => k))
  (at level 10, x name, m at level 100, k at level 200).
Notation "'run' m 'then' k" := (bind m (fun _ => k))
  (at level 10, m at level 100, k at level 200).

Definition raise {A} (e : exn) : M A := fun st => (Raised e, st).
Definition block {A} : M A := fun st => (Pending, st).

Definition emit (ev : event) : M unit :=
  fun st => (Normal tt, State (response st) (compiled_model_path st) (log st ++ [ev])).

Definition lift {A} (r : exn + A) : M A :=
  match r with
  | inl e => raise e
  | inr a => ret a
  end.

Definition get_response : M value := fun st => (Normal (response st), st).

Definition set_response (v : value) : M unit :=
  fun st => (Normal tt, State v (compiled_model_path st) (log st)).

Definition set_compiled_model_path (v : value) : M unit :=
  fun st => (Normal tt, State (response st) v (log st)).

(** [sm_client.describe_compilation_job(CompilationJobName=job)]: the call
    is made, and ends as the service answers it; [None] is a call that the
    service has not answered. *)
Definition describe_compilation_job (job : string) (a : option answer) : M value :=
  run emit (EvDescribe job) then
  match a with
  | Some (Returns resp) => ret (VDict resp)
  | Some (Raises e) => raise e
  | None => block
  end.

Definition print (text : string) : M unit := emit (EvPrint text).
Definition sleep (secs : Z) : M unit := emit (EvSleep secs).

(** ** The cell *)

(** How one pass through the body of [while True] ends. *)
Inductive control : Type := Break | Continue.

(** The body of the loop, for the answer [a] to its status query. *)
Definition loop_body (job : string) (a : option answer) : M control :=
  let* r := describe_compilation_job job a in
  run set_response r then
  let* r1 := get_response in
  let* s1 := lift (getitem r1 "CompilationJobStatus") in
  if py_eq_str s1 "COMPLETED" then ret Break
  else
    let* r2 := get_response in
    let* s2 := lift (getitem r2 "CompilationJobStatus") in
    if py_eq_str s2 "FAILED" then raise (RuntimeError "Compilation failed")
    else
      run print "Compiling ..." then
      run sleep 30 then
      ret Continue.

(** [while True: body], against the answers the service gives to the
    successive queries. When the answers run out the loop is in its next
    query. *)
Fixpoint while_true (job : string) (script : list answer) : M unit :=
  match script with
  | [] => run loop_body job None then ret tt
  | a :: rest =>
      let* c := loop_body job (Some a) in
      match c with
      | Break => ret tt
      | Continue => while_true job rest
      end
  end.

(** [compiled_model_path = response['ModelArtifacts']['S3ModelArtifacts']] *)
Definition extract_artifact : M unit :=
  let* r := get_response in
  let* artifacts := lift (getitem r "ModelArtifacts") in
  let* path := lift (getitem artifacts "S3ModelArtifacts") in
  set_compiled_model_path path.

(** The polling loop, the message after it and the extraction of the
    compiled model artifact. *)
Definition wait (job : string) (script : list answer) : M unit :=
  run while_true job script then
  run print "Done!" then
  extract_artifact.

(** The value [compiled_model_path] has before the loop:
    ['s3://{}/{}/output'.format(bucket, compilation_job_name)]. *)
Definition output_location (bucket job : string) : string :=
  ("s3://" ++ bucket ++ "/" ++ job ++ "/output")%string.

(** ** Vocabulary of the properties *)

(** The status a response reports, when it has the field. *)
Definition status (resp : gmap string value) : option value :=
  resp !! "CompilationJobStatus".

(** The three ways the loop treats a status: the two comparisons of
    [loop_body], in its order. *)
Inductive class : Type := TerminalSuccess | TerminalFailure | NonTerminal.

Definition classify (v : value) : class :=
  if py_eq_str v "COMPLETED" then TerminalSuccess
  else if py_eq_str v "FAILED" then TerminalFailure
  else NonTerminal.

Definition class_eqb (c1 c2 : class) : bool :=
  match c1, c2 with
  | TerminalSuccess, TerminalSuccess => true
  | TerminalFailure, TerminalFailure => true
  | NonTerminal, NonTerminal => true
  | _, _ => false
  end.

(** The response reports a status of class [c]. *)
Definition observes (c : class) (resp : gmap string value) : bool :=
  match status resp with
  | Some v => class_eqb (classify v) c
  | None => false
  end.

Definition is_running : gmap string value -> bool := observes NonTerminal.
Definition is_completed : gmap string value -> bool := observes TerminalSuccess.
Definition is_failed : gmap string value -> bool := observes TerminalFailure.

(** Two sequences of responses of the same length whose statuses have
    pairwise the same class. *)
Fixpoint same_classes (s1 s2 : list (gmap string value)) : bool :=
  match s1, s2 with
  | [], [] => true
  | r1 :: t1, r2 :: t2 =>
      match status r1, status r2 with
      | Some v1, Some v2 => class_eqb (classify v1) (classify v2) && same_classes t1 t2
      | _, _ => false
      end
  | _, _ => false
  end.

(** The first field access of the cell that fails on a response, if one
    does: the status in the loop, then, for a completed job, the two keys of
    the extraction. *)
Definition missing_field (resp : gmap string value) : option string :=
  match status resp with
  | None => Some "CompilationJobStatus"
  | Some v =>
      if py_eq_str v "COMPLETED" then
        match resp !! "ModelArtifacts" with
        | None => Some "ModelArtifacts"
        | Some (VDict artifacts) =>
            match artifacts !! "S3ModelArtifacts" with
            | None => Some "S3ModelArtifacts"
            | Some _ => None
            end
        | Some _ => None
        end
      else None
  end.

Definition is_describe (ev : event) : bool :=
  match ev with EvDescribe _ => true | _ => false end.

Definition is_sleep (ev : event) : bool :=
  match ev with EvSleep _ => true | _ => false end.

(** Number of status queries and of sleeps in a log. *)
Definition queries (l : list event) : nat := length (List.filter is_describe l).
Definition sleeps (l : list event) : nat := length (List.filter is_sleep l).

(** The durations passed to [time.sleep], in order. *)
Fixpoint sleep_durations (l : list event) : list Z :=
  match l with
  | [] => []
  | EvSleep d :: l' => d :: sleep_durations l'
  | _ :: l' => sleep_durations l'
  end.

(** The events of [n] passes through the loop that end in [Continue]. *)
Fixpoint polled (job : string) (n : nat) : list event :=
  match n with
  | O => []
  | S n' => EvDescribe job :: EvPrint "Compiling ..." :: EvSleep 30 :: polled job n'
  end.

(** The value of [response] after the responses [pre] have been assigned to
    it one after the other. *)
Definition last_response (pre : list (gmap string value)) (r0 : value) : value :=
  List.last (List.map VDict pre) r0.

(** An error carries a value when the value is one of the arguments the
    exception object was built from. *)
Definition carries (e : exn) (v : value) : Prop := In v (exn_args e).

(** A response with the given status and nothing else. *)
Definition with_status (s : string) : gmap string value :=
  {[ "CompilationJobStatus" := VStr s ]}.

(** A response of a completed job whose artifact is at [loc]. *)
Definition completed_at (loc : string) : gmap string value :=
  <[ "ModelArtifacts" := VDict {[ "S3ModelArtifacts" := VStr loc ]} ]>
    (with_status "COMPLETED").

(** A response of a failed job, with the reason the service gives. *)
Definition failed_because (reason : string) : gmap string value :=
  <[ "FailureReason" := VStr reason ]> (with_status "FAILED").

(** The globals before the loop: [response] holds the acknowledgement of
    [create_compilation_job], [compiled_model_path] the output location that
    was passed to it. *)
Definition initial (bucket job : string) : state :=
  State (VDict {[ "CompilationJobArn" := VStr job ]})
        (VStr (output_location bucket job))
        [].

(** ** Further vocabulary, and the cells around the loop *)

(** The seconds passed to [time.sleep], added up. *)
Definition total_sleep (l : list event) : Z :=
  List.fold_right Z.add 0%Z (sleep_durations l).

(** An answer that ends the loop: every answer but a response that reports
    a non-terminal status. *)
Definition decisive (a : answer) : bool :=
  match a with
  | Returns resp => negb (is_running resp)
  | Raises _ => true
  end.

Definition is_dict (v : value) : bool :=
  match v with VDict _ => true | _ => false end.

(** [model_key = '{}/model/model.tar.gz'.format(compilation_job_name)] *)
Definition model_key (job : string) : string :=
  (job ++ "/model/model.tar.gz")%string.

(** [model_path = 's3://{}/{}'.format(bucket, model_key)] *)
Definition model_path (bucket job : string) : string :=
  ("s3://" ++ bucket ++ "/" ++ model_key job)%string.

(** [source_key = '{}/source/sourcedir.tar.gz'.format(compilation_job_name)] *)
Definition source_key (job : string) : string :=
  (job ++ "/source/sourcedir.tar.gz")%string.

(** [source_path = 's3://{}/{}'.format(bucket, source_key)] *)
Definition source_path (bucket job : string) : string :=
  ("s3://" ++ bucket ++ "/" ++ source_key job)%string.




(** The keyword arguments of [sm_client.create_model] in the cell that
    creates the model record; [compiled_model_path] is read from the globals
    as the cell of the loop left them. *)
Definition create_model_kwargs
    (model_name image_uri source_path role : string) (st : state)
  : gmap string value :=
  {[ "ModelName" := VStr model_name;
     "PrimaryContainer" :=
       VDict {[ "Image" := VStr image_uri;
                "ModelDataUrl" := compiled_model_path st;
                "Environment" :=
                  VDict {[ "SAGEMAKER_SUBMIT_DIRECTORY" := VStr source_path ]} ]};
     "ExecutionRoleArn" := VStr role ]}.

(** ** One pass through the loop *)

Ltac step_cell :=
  unfold loop_body, describe_compilation_job, extract_artifact, bind, emit,
    print, sleep, set_response, get_response, set_compiled_model_path, lift,
    raise, block, ret, getitem; cbn.

Lemma class_eqb_eq c1 c2 : class_eqb c1 c2 = true <-> c1 = c2.
Proof. destruct c1, c2; cbn; split; congruence. Qed.

Lemma observes_status c resp :
  observes c resp = true <-> exists v, status resp = Some v /\ classify v = c.
Proof.
  unfold observes. destruct (status resp) as [v|].
  - rewrite class_eqb_eq. split; [eauto | intros (w & [= <-] & H); exact H].
  - split; [discriminate | intros (w & [=] & _)].
Qed.

Lemma classify_running v :
  classify v = NonTerminal ->
  py_eq_str v "COMPLETED" = false /\ py_eq_str v "FAILED" = false.
Proof.
  unfold classify.
  destruct (py_eq_str v "COMPLETED"); [discriminate|].
  destruct (py_eq_str v "FAILED"); [discriminate|]. split; reflexivity.
Qed.

Lemma classify_completed v :
  classify v = TerminalSuccess -> py_eq_str v "COMPLETED" = true.
Proof.
  unfold classify.
  destruct (py_eq_str v "COMPLETED"); [reflexivity|].
  destruct (py_eq_str v "FAILED"); discriminate.
Qed.

Lemma classify_failed v :
  classify v = TerminalFailure ->
  py_eq_str v "COMPLETED" = false /\ py_eq_str v "FAILED" = true.
Proof.
  unfold classify.
  destruct (py_eq_str v "COMPLETED"); [discriminate|].
  destruct (py_eq_str v "FAILED"); [split; reflexivity | discriminate].
Qed.

Lemma loop_body_continue job resp st :
  is_running resp = true ->
  loop_body job (Some (Returns resp)) st =
    (Normal Continue,
     State (VDict resp) (compiled_model_path st)
           (log st ++ [EvDescribe job; EvPrint "Compiling ..."; EvSleep 30])).
Proof.
  intros H. apply observes_status in H as (v & Hs & Hc).
  apply classify_running in Hc as [Hc Hf]. unfold status in Hs.
  step_cell. rewrite Hs. cbn. rewrite Hc. cbn. rewrite Hs. cbn. rewrite Hf. cbn.
  repeat rewrite <- app_assoc. reflexivity.
Qed.

Lemma loop_body_break job resp st :
  is_completed resp = true ->
  loop_body job (Some (Returns resp)) st =
    (Normal Break,
     State (VDict resp) (compiled_model_path st) (log st ++ [EvDescribe job])).
Proof.
  intros H. apply observes_status in H as (v & Hs & Hc).
  apply classify_completed in Hc. unfold status in Hs.
  step_cell. rewrite Hs. cbn. rewrite Hc. reflexivity.
Qed.

Lemma loop_body_failed job resp st :
  is_failed resp = true ->
  loop_body job (Some (Returns resp)) st =
    (Raised (RuntimeError "Compilation failed"),
     State (VDict resp) (compiled_model_path st) (log st ++ [EvDescribe job])).
Proof.
  intros H. apply observes_status in H as (v & Hs & Hc).
  apply classify_failed in Hc as [Hc Hf]. unfold status in Hs.
  step_cell. rewrite Hs. cbn. rewrite Hc. cbn. rewrite Hs. cbn. rewrite Hf.
  reflexivity.
Qed.

Lemma loop_body_no_status job resp st :
  status resp = None ->
  loop_body job (Some (Returns resp)) st =
    (Raised (KeyError "CompilationJobStatus"),
     State (VDict resp) (compiled_model_path st) (log st ++ [EvDescribe job])).
Proof.
  unfold status. intros Hs. step_cell. rewrite Hs. reflexivity.
Qed.

Lemma loop_body_query_raises job e st :
  loop_body job (Some (Raises e)) st =
    (Raised e,
     State (response st) (compiled_model_path st) (log st ++ [EvDescribe job])).
Proof. reflexivity. Qed.

Lemma loop_body_unanswered job st :
  loop_body job None st =
    (Pending,
     State (response st) (compiled_model_path st) (log st ++ [EvDescribe job])).
Proof. reflexivity. Qed.

(** ** Counting events *)

Lemma queries_app l1 l2 : queries (l1 ++ l2) = queries l1 + queries l2.
Proof. unfold queries. rewrite List.filter_app, List.length_app. reflexivity. Qed.

Lemma sleeps_app l1 l2 : sleeps (l1 ++ l2) = sleeps l1 + sleeps l2.
Proof. unfold sleeps. rewrite List.filter_app, List.length_app. reflexivity. Qed.

Lemma sleep_durations_app l1 l2 :
  sleep_durations (l1 ++ l2) = sleep_durations l1 ++ sleep_durations l2.
Proof.
  induction l1 as [|ev l1 IH]; [reflexivity|].
  destruct ev; cbn; rewrite IH; reflexivity.
Qed.

Lemma queries_polled job n : queries (polled job n) = n.
Proof.
  induction n as [|n IH]; [reflexivity|].
  unfold queries in *. cbn. rewrite IH. reflexivity.
Qed.

Lemma sleeps_polled job n : sleeps (polled job n) = n.
Proof.
  induction n as [|n IH]; [reflexivity|].
  unfold sleeps in *. cbn. rewrite IH. reflexivity.
Qed.

Lemma sleep_durations_polled job n :
  sleep_durations (polled job n) = List.repeat 30%Z n.
Proof. induction n as [|n IH]; [reflexivity|]. cbn. rewrite IH. reflexivity. Qed.

(** ** The loop *)

Lemma last_cons_default {A} (l : list A) (a d : A) :
  List.last (a :: l) d = List.last l a.
Proof.
  revert a d. induction l as [|x l IH]; intros a d; [reflexivity|].
  change (List.last (a :: x :: l) d) with (List.last (x :: l) d).
  rewrite (IH x d), (IH x a). reflexivity.
Qed.

Lemma last_response_cons resp pre r0 :
  last_response (resp :: pre) r0 = last_response pre (VDict resp).
Proof. unfold last_response. cbn [List.map]. apply last_cons_default. Qed.

Lemma last_response_snoc pre fin r0 :
  last_response (pre ++ [fin]) r0 = VDict fin.
Proof.
  unfold last_response. rewrite List.map_app. cbn. apply List.last_last.
Qed.

(** Responses that report a non-terminal status take the loop round
    again, whatever comes after them. *)
Lemma while_true_running job pre rest st :
  forallb is_running pre = true ->
  while_true job (List.map Returns pre ++ rest) st =
    while_true job rest
      (State (last_response pre (response st)) (compiled_model_path st)
             (log st ++ polled job (length pre))).
Proof.
  revert st. induction pre as [|resp pre IH]; intros st H.
  - destruct st. cbn. rewrite app_nil_r. reflexivity.
  - cbn in H. apply andb_true_iff in H as [Hr Hp].
    cbn [List.map app while_true]. unfold bind at 1.
    rewrite (loop_body_continue _ _ _ Hr), (IH _ Hp).
    rewrite last_response_cons. cbn [response compiled_model_path log length].
    rewrite <- app_assoc. reflexivity.
Qed.

Lemma script_split pre fin rest :
  List.map Returns (pre ++ [fin]) ++ rest =
    List.map Returns pre ++ Returns fin :: rest.
Proof. rewrite List.map_app, <- app_assoc. reflexivity. Qed.

Lemma while_true_completed job pre fin rest st :
  forallb is_running pre = true ->
  is_completed fin = true ->
  while_true job (List.map Returns (pre ++ [fin]) ++ rest) st =
    (Normal tt,
     State (VDict fin) (compiled_model_path st)
           (log st ++ polled job (length pre) ++ [EvDescribe job])).
Proof.
  intros Hp Hf. rewrite script_split, (while_true_running _ _ _ _ Hp).
  cbn [while_true]. unfold bind. rewrite (loop_body_break _ _ _ Hf).
  cbn. rewrite <- app_assoc. reflexivity.
Qed.

Lemma while_true_failed job pre fin rest st :
  forallb is_running pre = true ->
  is_failed fin = true ->
  while_true job (List.map Returns (pre ++ [fin]) ++ rest) st =
    (Raised (RuntimeError "Compilation failed"),
     State (VDict fin) (compiled_model_path st)
           (log st ++ polled job (length pre) ++ [EvDescribe job])).
Proof.
  intros Hp Hf. rewrite script_split, (while_true_running _ _ _ _ Hp).
  cbn [while_true]. unfold bind. rewrite (loop_body_failed _ _ _ Hf).
  cbn. rewrite <- app_assoc. reflexivity.
Qed.

Lemma while_true_no_status job pre bad rest st :
  forallb is_running pre = true ->
  status bad = None ->
  while_true job (List.map Returns (pre ++ [bad]) ++ rest) st =
    (Raised (KeyError "CompilationJobStatus"),
     State (VDict bad) (compiled_model_path st)
           (log st ++ polled job (length pre) ++ [EvDescribe job])).
Proof.
  intros Hp Hb. rewrite script_split, (while_true_running _ _ _ _ Hp).
  cbn [while_true]. unfold bind. rewrite (loop_body_no_status _ _ _ Hb).
  cbn. rewrite <- app_assoc. reflexivity.
Qed.

Lemma while_true_query_raises job pre e rest st :
  forallb is_running pre = true ->
  while_true job (List.map Returns pre ++ Raises e :: rest) st =
    (Raised e,
     State (last_response pre (response st)) (compiled_model_path st)
           (log st ++ polled job (length pre) ++ [EvDescribe job])).
Proof.
  intros Hp. rewrite (while_true_running _ _ _ _ Hp).
  cbn [while_true]. unfold bind. rewrite loop_body_query_raises.
  cbn. rewrite <- app_assoc. reflexivity.
Qed.

Lemma while_true_unanswered job pre st :
  forallb is_running pre = true ->
  while_true job (List.map Returns pre) st =
    (Pending,
     State (last_response pre (response st)) (compiled_model_path st)
           (log st ++ polled job (length pre) ++ [EvDescribe job])).
Proof.
  intros Hp. rewrite <- (app_nil_r (List.map Returns pre)).
  rewrite (while_true_running _ _ _ _ Hp).
  cbn [while_true]. unfold bind. rewrite loop_body_unanswered.
  cbn. rewrite <- app_assoc. reflexivity.
Qed.

(** ** The extraction *)

Lemma extract_artifact_log st : log (snd (extract_artifact st)) = log st.
Proof.
  step_cell. destruct (response st) as [| | | |d]; try reflexivity.
  destruct (d !! "ModelArtifacts") as [a|]; [|reflexivity].
  destruct a as [| | | |d']; try reflexivity.
  destruct (d' !! "S3ModelArtifacts"); reflexivity.
Qed.

Lemma extract_artifact_found resp artifacts loc st :
  response st = VDict resp ->
  resp !! "ModelArtifacts" = Some (VDict artifacts) ->
  artifacts !! "S3ModelArtifacts" = Some loc ->
  extract_artifact st = (Normal tt, State (VDict resp) loc (log st)).
Proof.
  intros Hr Ha Hl. step_cell. rewrite Hr, Ha. cbn. rewrite Hl. cbn.
  rewrite Hr. reflexivity.
Qed.

Lemma extract_artifact_missing resp key st :
  response st = VDict resp ->
  is_completed resp = true ->
  missing_field resp = Some key ->
  extract_artifact st = (Raised (KeyError key), st).
Proof.
  intros Hr Hc Hm. apply observes_status in Hc as (v & Hs & Hc).
  apply classify_completed in Hc. unfold missing_field in Hm.
  rewrite Hs, Hc in Hm. step_cell. rewrite Hr.
  destruct (resp !! "ModelArtifacts") as [a|]; [|congruence].
  destruct a as [| | | |d']; try discriminate. cbn.
  destruct (d' !! "S3ModelArtifacts"); [discriminate | congruence].
Qed.

(** ** The whole wait *)

Lemma wait_completed job pre fin rest st :
  forallb is_running pre = true ->
  is_completed fin = true ->
  wait job (List.map Returns (pre ++ [fin]) ++ rest) st =
    extract_artifact
      (State (VDict fin) (compiled_model_path st)
             (log st ++ polled job (length pre) ++ [EvDescribe job; EvPrint "Done!"])).
Proof.
  intros Hp Hf. unfold wait, bind at 1.
  rewrite (while_true_completed _ _ _ _ _ Hp Hf).
  unfold bind, print, emit. cbn [response compiled_model_path log].
  repeat rewrite <- app_assoc. reflexivity.
Qed.

Lemma wait_raises job script st e st' :
  while_true job script st = (Raised e, st') ->
  wait job script st = (Raised e, st').
Proof. intros H. unfold wait, bind at 1. rewrite H. reflexivity. Qed.

Lemma wait_pending job script st st' :
  while_true job script st = (Pending, st') ->
  wait job script st = (Pending, st').
Proof. intros H. unfold wait, bind at 1. rewrite H. reflexivity. Qed.

Lemma wait_log job script st :
  log (snd (wait job script st)) =
    log (snd (while_true job script st)) ++
    match fst (while_true job script st) with
    | Normal _ => [EvPrint "Done!"]
    | _ => []
    end.
Proof.
  unfold wait, bind at 1.
  destruct (while_true job script st) as [[[]|e|] st']; cbn [fst snd].
  - unfold bind, print, emit. rewrite extract_artifact_log. reflexivity.
  - rewrite app_nil_r. reflexivity.
  - rewrite app_nil_r. reflexivity.
Qed.

(** Every response is of exactly one of four kinds. *)
Lemma response_cases resp :
  status resp = None \/ is_running resp = true \/
  is_completed resp = true \/ is_failed resp = true.
Proof.
  unfold is_running, is_completed, is_failed, observes.
  destruct (status resp) as [v|]; [right | left; reflexivity].
  destruct (classify v); cbn; auto.
Qed.

(** The log of the loop against any answers: some passes that continue,
    and one more query. *)
Lemma while_true_log_shape job script st :
  exists n, n <= length script /\
    log (snd (while_true job script st)) =
      log st ++ polled job n ++ [EvDescribe job].
Proof.
  revert st. induction script as [|a rest IH]; intros st.
  - exists 0. split; [lia|]. reflexivity.
  - destruct a as [resp|e].
    + destruct (response_cases resp) as [H|[H|[H|H]]].
      * exists 0. split; [cbn; lia|]. cbn [while_true]. unfold bind.
        rewrite (loop_body_no_status _ _ _ H). reflexivity.
      * cbn [while_true]. unfold bind. rewrite (loop_body_continue _ _ _ H).
        destruct (IH (State (VDict resp) (compiled_model_path st)
                        (log st ++ [EvDescribe job; EvPrint "Compiling ..."; EvSleep 30])))
          as (n & Hn & Hlog).
        exists (S n). split; [cbn; lia|]. rewrite Hlog. cbn [log].
        rewrite <- app_assoc. reflexivity.
      * exists 0. split; [cbn; lia|]. cbn [while_true]. unfold bind.
        rewrite (loop_body_break _ _ _ H). reflexivity.
      * exists 0. split; [cbn; lia|]. cbn [while_true]. unfold bind.
        rewrite (loop_body_failed _ _ _ H). reflexivity.
    + exists 0. split; [cbn; lia|]. reflexivity.
Qed.

Lemma wait_log_shape job script st :
  exists n tail, n <= length script /\
    (tail = [] \/ tail = [EvPrint "Done!"]) /\
    log (snd (wait job script st)) =
      log st ++ polled job n ++ EvDescribe job :: tail.
Proof.
  destruct (while_true_log_shape job script st) as (n & Hn & Hlog).
  exists n. rewrite wait_log, Hlog.
  destruct (fst (while_true job script st)).
  - exists [EvPrint "Done!"]. split; [exact Hn|]. split; [auto|].
    repeat rewrite <- app_assoc. reflexivity.
  - exists []. split; [exact Hn|]. split; [auto|].
    repeat rewrite <- app_assoc. rewrite app_nil_r. reflexivity.
  - exists []. split; [exact Hn|]. split; [auto|].
    repeat rewrite <- app_assoc. rewrite app_nil_r. reflexivity.
Qed.

(** ** Properties of the wait *)

(** C1. When the statuses observed are non-terminal up to a last one that
    is the terminal success, the wait ends normally and leaves in
    [compiled_model_path] the [S3ModelArtifacts] entry of [ModelArtifacts] of
    that last response, whatever [compiled_model_path] held before (the
    output location built locally) and whatever the service would have
    answered afterwards. *)
Theorem wait_returns_artifact_of_final_response
    job pre fin rest artifacts loc st :
  forallb is_running pre = true ->
  is_completed fin = true ->
  fin !! "ModelArtifacts" = Some (VDict artifacts) ->
  artifacts !! "S3ModelArtifacts" = Some loc ->
  wait job (List.map Returns (pre ++ [fin]) ++ rest) st =
    (Normal tt,
     State (VDict fin) loc
           (log st ++ polled job (length pre) ++ [EvDescribe job; EvPrint "Done!"])).
Proof.
  intros Hp Hf Ha Hl. rewrite (wait_completed _ _ _ _ _ Hp Hf).
  apply (extract_artifact_found fin artifacts loc); [reflexivity | exact Ha | exact Hl].
Qed.

Lemma wait_returns_artifact_of_final_response_witness :
  compiled_model_path (initial "bucket" "job") = VStr "s3://bucket/job/output" /\
  wait "job"
       (List.map Returns
          ([with_status "IN_PROGRESS"; with_status "IN_PROGRESS"] ++
           [completed_at "s3://bucket/output/model.tar"]) ++ [])
       (initial "bucket" "job") =
    (Normal tt,
     State (VDict (completed_at "s3://bucket/output/model.tar"))
           (VStr "s3://bucket/output/model.tar")
           (log (initial "bucket" "job") ++ polled "job" 2 ++
            [EvDescribe "job"; EvPrint "Done!"])).
Proof.
  split; [reflexivity|].
  apply (wait_returns_artifact_of_final_response "job"
           [with_status "IN_PROGRESS"; with_status "IN_PROGRESS"]
           (completed_at "s3://bucket/output/model.tar") []
           {[ "S3ModelArtifacts" := VStr "s3://bucket/output/model.tar" ]}
           (VStr "s3://bucket/output/model.tar")
           (initial "bucket" "job")); reflexivity.
Defined.

(** C3. When the statuses observed are non-terminal up to a last one that
    is the terminal success, the wait issues one query for each observed
    status, the terminal one included, and no more; after each query but the
    terminal one it sleeps once, for 30 seconds, and after the terminal query
    it does not sleep. For IN_PROGRESS, IN_PROGRESS, COMPLETED these are 3
    queries and 2 sleeps. *)
Theorem wait_success_queries_and_sleeps job pre fin rest st :
  forallb is_running pre = true ->
  is_completed fin = true ->
  let st' := snd (wait job (List.map Returns (pre ++ [fin]) ++ rest) st) in
  log st' =
    log st ++ polled job (length pre) ++ [EvDescribe job; EvPrint "Done!"] /\
  queries (log st') = queries (log st) + length (pre ++ [fin]) /\
  sleeps (log st') = sleeps (log st) + length pre /\
  sleep_durations (log st') =
    sleep_durations (log st) ++ List.repeat 30%Z (length pre).
Proof.
  intros Hp Hf. cbv zeta.
  rewrite (wait_completed _ _ _ _ _ Hp Hf), extract_artifact_log. cbn [log].
  split; [reflexivity|].
  rewrite !queries_app, !sleeps_app, !sleep_durations_app.
  rewrite queries_polled, sleeps_polled, sleep_durations_polled.
  rewrite List.length_app. cbn. rewrite app_nil_r.
  repeat split; lia.
Qed.

Lemma wait_success_queries_and_sleeps_witness :
  let st' :=
    snd (wait "job"
           (List.map Returns
              ([with_status "IN_PROGRESS"; with_status "IN_PROGRESS"] ++
               [with_status "COMPLETED"]) ++ [])
           (initial "bucket" "job")) in
  log st' =
    log (initial "bucket" "job") ++ polled "job" 2 ++
    [EvDescribe "job"; EvPrint "Done!"] /\
  queries (log st') = queries (log (initial "bucket" "job")) + 3 /\
  sleeps (log st') = sleeps (log (initial "bucket" "job")) + 2 /\
  sleep_durations (log st') =
    sleep_durations (log (initial "bucket" "job")) ++ [30%Z; 30%Z].
Proof.
  apply (wait_success_queries_and_sleeps "job"
           [with_status "IN_PROGRESS"; with_status "IN_PROGRESS"]
           (with_status "COMPLETED") [] (initial "bucket" "job")); reflexivity.
Defined.

(** C4. When the statuses observed are non-terminal up to a last one that
    is the terminal failure, the wait raises the failure error, and the
    query that observed the failure is its last event: it has issued one
    query for each observed status and none after, whatever the service
    would have answered afterwards. For IN_PROGRESS, FAILED these are 2
    queries. *)
Theorem wait_failure_stops_querying job pre fin rest st :
  forallb is_running pre = true ->
  is_failed fin = true ->
  let r := wait job (List.map Returns (pre ++ [fin]) ++ rest) st in
  fst r = Raised (RuntimeError "Compilation failed") /\
  log (snd r) = log st ++ polled job (length pre) ++ [EvDescribe job] /\
  queries (log (snd r)) = queries (log st) + length (pre ++ [fin]) /\
  sleeps (log (snd r)) = sleeps (log st) + length pre.
Proof.
  intros Hp Hf. cbv zeta.
  rewrite (wait_raises _ _ _ _ _ (while_true_failed _ _ _ rest st Hp Hf)).
  cbn [fst snd log]. split; [reflexivity|]. split; [reflexivity|].
  rewrite !queries_app, !sleeps_app, queries_polled, sleeps_polled.
  rewrite List.length_app. cbn. split; lia.
Qed.

Lemma wait_failure_stops_querying_witness :
  let r :=
    wait "job"
      (List.map Returns ([with_status "IN_PROGRESS"] ++ [with_status "FAILED"]) ++
       [Returns (with_status "COMPLETED")])
      (initial "bucket" "job") in
  fst r = Raised (RuntimeError "Compilation failed") /\
  log (snd r) =
    log (initial "bucket" "job") ++ polled "job" 1 ++ [EvDescribe "job"] /\
  queries (log (snd r)) = queries (log (initial "bucket" "job")) + 2 /\
  sleeps (log (snd r)) = sleeps (log (initial "bucket" "job")) + 1.
Proof.
  apply (wait_failure_stops_querying "job" [with_status "IN_PROGRESS"]
           (with_status "FAILED") [Returns (with_status "COMPLETED")]
           (initial "bucket" "job")); reflexivity.
Defined.

(** C5. The loop has no timeout or deadline. For every number of observed
    statuses, if all of them are non-terminal (whatever their value, STOPPED
    included), the wait has not ended: it has neither returned nor raised, and
    it is in a further query, one more than the statuses observed. Whatever
    the service answers from there on, at least that many queries are
    issued. *)
Theorem wait_has_no_timeout job pre st :
  forallb is_running pre = true ->
  fst (wait job (List.map Returns pre) st) = Pending /\
  queries (log (snd (wait job (List.map Returns pre) st))) =
    queries (log st) + length pre + 1 /\
  forall rest,
    queries (log st) + length pre + 1 <=
    queries (log (snd (wait job (List.map Returns pre ++ rest) st))).
Proof.
  intros Hp. split; [|split].
  - rewrite (wait_pending _ _ _ _ (while_true_unanswered _ _ st Hp)). reflexivity.
  - rewrite (wait_pending _ _ _ _ (while_true_unanswered _ _ st Hp)). cbn [snd log].
    rewrite !queries_app, queries_polled. cbn. lia.
  - intros rest. rewrite wait_log, (while_true_running _ _ _ _ Hp).
    match goal with |- context [while_true job rest ?s] =>
      destruct (while_true_log_shape job rest s) as (n & _ & Hlog)
    end.
    rewrite Hlog. cbn [log]. rewrite !queries_app, !queries_polled. cbn. lia.
Qed.

Lemma wait_has_no_timeout_witness :
  fst (wait "job"
         (List.map Returns
            [with_status "STARTING"; with_status "INPROGRESS"; with_status "STOPPED";
             with_status "STOPPED"])
         (initial "bucket" "job")) = Pending /\
  queries (log (snd (wait "job"
         (List.map Returns
            [with_status "STARTING"; with_status "INPROGRESS"; with_status "STOPPED";
             with_status "STOPPED"])
         (initial "bucket" "job")))) =
    queries (log (initial "bucket" "job")) + 4 + 1 /\
  forall rest,
    queries (log (initial "bucket" "job")) + 4 + 1 <=
    queries (log (snd (wait "job"
         (List.map Returns
            [with_status "STARTING"; with_status "INPROGRESS"; with_status "STOPPED";
             with_status "STOPPED"] ++ rest)
         (initial "bucket" "job")))).
Proof.
  apply (wait_has_no_timeout "job"
           [with_status "STARTING"; with_status "INPROGRESS"; with_status "STOPPED";
            with_status "STOPPED"]
           (initial "bucket" "job")); reflexivity.
Defined.

(** C8. When a status query itself raises, after any number of non-terminal
    statuses, the wait raises that same error: the failing query is its last
    event, so there is no retry, no further query and no further sleep,
    whatever the service would have answered afterwards. *)
Theorem query_error_propagates job pre e rest st :
  forallb is_running pre = true ->
  let r := wait job (List.map Returns pre ++ Raises e :: rest) st in
  fst r = Raised e /\
  log (snd r) = log st ++ polled job (length pre) ++ [EvDescribe job] /\
  queries (log (snd r)) = queries (log st) + length pre + 1 /\
  sleeps (log (snd r)) = sleeps (log st) + length pre.
Proof.
  intros Hp. cbv zeta.
  rewrite (wait_raises _ _ _ _ _ (while_true_query_raises _ _ e rest st Hp)).
  cbn [fst snd log]. split; [reflexivity|]. split; [reflexivity|].
  rewrite !queries_app, !sleeps_app, queries_polled, sleeps_polled.
  cbn. split; lia.
Qed.

Lemma query_error_propagates_witness :
  let r :=
    wait "job"
      (List.map Returns [with_status "INPROGRESS"] ++
       Raises (Exn "EndpointConnectionError" [VStr "Could not connect"]) ::
       [Returns (with_status "COMPLETED")])
      (initial "bucket" "job") in
  fst r = Raised (Exn "EndpointConnectionError" [VStr "Could not connect"]) /\
  log (snd r) =
    log (initial "bucket" "job") ++ polled "job" 1 ++ [EvDescribe "job"] /\
  queries (log (snd r)) = queries (log (initial "bucket" "job")) + 1 + 1 /\
  sleeps (log (snd r)) = sleeps (log (initial "bucket" "job")) + 1.
Proof.
  apply (query_error_propagates "job" [with_status "INPROGRESS"]
           (Exn "EndpointConnectionError" [VStr "Could not connect"])
           [Returns (with_status "COMPLETED")] (initial "bucket" "job")).
  reflexivity.
Defined.

Lemma missing_field_cases resp key :
  missing_field resp = Some key ->
  (status resp = None /\ key = "CompilationJobStatus") \/
  (is_completed resp = true /\
   (key = "ModelArtifacts" \/ key = "S3ModelArtifacts")).
Proof.
  unfold missing_field, is_completed, observes, classify.
  destruct (status resp) as [v|]; [|intros [= <-]; left; split; reflexivity].
  destruct (py_eq_str v "COMPLETED"); [|discriminate]. intros H. right.
  split; [reflexivity|].
  destruct (resp !! "ModelArtifacts") as [a|]; [|injection H as <-; auto].
  destruct a as [| | | |d]; try discriminate.
  destruct (d !! "S3ModelArtifacts"); [discriminate | injection H as <-; auto].
Qed.

(** What [missing_field] computes, spelled out. *)
Lemma missing_field_spec resp key :
  missing_field resp = Some key <->
  (resp !! "CompilationJobStatus" = None /\ key = "CompilationJobStatus") \/
  (is_completed resp = true /\
   resp !! "ModelArtifacts" = None /\ key = "ModelArtifacts") \/
  (is_completed resp = true /\
   exists artifacts,
     resp !! "ModelArtifacts" = Some (VDict artifacts) /\
     artifacts !! "S3ModelArtifacts" = None /\ key = "S3ModelArtifacts").
Proof.
  unfold missing_field, is_completed, observes, classify, status.
  destruct (resp !! "CompilationJobStatus") as [v|].
  - destruct (py_eq_str v "COMPLETED").
    + destruct (resp !! "ModelArtifacts") as [a|].
      * destruct a as [| | | |d];
          try (split; [discriminate | intros [[[=] _]|[(_ & [=] & _)|(_ & d' & [=] & _)]]]).
        destruct (d !! "S3ModelArtifacts") eqn:E.
        -- split; [discriminate|].
           intros [[[=] _]|[(_ & [=] & _)|(_ & d' & [= <-] & Hd & _)]]. congruence.
        -- split.
           ++ intros [= <-]. right. right. split; [reflexivity|]. exists d. auto.
           ++ intros [[[=] _]|[(_ & [=] & _)|(_ & d' & _ & _ & ->)]]. reflexivity.
      * split.
        -- intros [= <-]. right. left. auto.
        -- intros [[[=] _]|[(_ & _ & ->)|(_ & d' & [=] & _)]]. reflexivity.
    + split; [discriminate|].
      intros [[[=] _]|[(H & _)|(H & _)]];
        destruct (py_eq_str v "FAILED"); discriminate.
  - split.
    + intros [= <-]. left. auto.
    + intros [[_ ->]|[([=] & _)|([=] & _)]]. reflexivity.
Qed.

(** C9. The field accesses are unguarded. When a response, after any
    number of non-terminal statuses, has no [CompilationJobStatus] entry, or
    reports the terminal success and has no [ModelArtifacts] entry or a
    [ModelArtifacts] dictionary without [S3ModelArtifacts], the wait raises
    the [KeyError] of the missing key: it neither returns nor raises the
    failure error. *)
Theorem missing_field_raises_key_error job pre bad rest key st :
  forallb is_running pre = true ->
  missing_field bad = Some key ->
  let r := wait job (List.map Returns (pre ++ [bad]) ++ rest) st in
  fst r = Raised (KeyError key) /\
  fst r <> Normal tt /\
  fst r <> Raised (RuntimeError "Compilation failed").
Proof.
  intros Hp Hm. cbv zeta.
  assert (fst (wait job (List.map Returns (pre ++ [bad]) ++ rest) st) =
          Raised (KeyError key)) as ->.
  { destruct (missing_field_cases _ _ Hm) as [[Hs ->]|[Hc _]].
    - rewrite (wait_raises _ _ _ _ _ (while_true_no_status _ _ _ rest st Hp Hs)).
      reflexivity.
    - rewrite (wait_completed _ _ _ _ _ Hp Hc).
      rewrite (extract_artifact_missing bad key); [reflexivity | reflexivity | | ];
        assumption. }
  repeat split; discriminate.
Qed.

Lemma missing_field_raises_key_error_witness :
  let r :=
    wait "job"
      (List.map Returns ([with_status "INPROGRESS"] ++ [with_status "COMPLETED"]) ++ [])
      (initial "bucket" "job") in
  fst r = Raised (KeyError "ModelArtifacts") /\
  fst r <> Normal tt /\
  fst r <> Raised (RuntimeError "Compilation failed").
Proof.
  apply (missing_field_raises_key_error "job" [with_status "INPROGRESS"]
           (with_status "COMPLETED") [] "ModelArtifacts" (initial "bucket" "job"));
    reflexivity.
Defined.

Example missing_status_raises :
  fst (wait "job" [Returns (with_status "INPROGRESS"); Returns ∅]
         (initial "bucket" "job")) =
    Raised (KeyError "CompilationJobStatus").
Proof. vm_compute. reflexivity. Qed.

Example missing_artifact_location_raises :
  fst (wait "job"
         [Returns (<[ "ModelArtifacts" := VDict ∅ ]> (with_status "COMPLETED"))]
         (initial "bucket" "job")) =
    Raised (KeyError "S3ModelArtifacts").
Proof. vm_compute. reflexivity. Qed.

(** C10. When the first status observed is already terminal, the wait ends
    after that one query and no sleep: the query is its first event, nothing
    precedes it and no sleep follows it. On the terminal failure it raises the
    failure error, and on the terminal success it leaves the artifact location
    of that response in [compiled_model_path]. *)
Theorem terminal_first_status job fin rest st :
  is_completed fin || is_failed fin = true ->
  let r := wait job (Returns fin :: rest) st in
  log (snd r) =
    log st ++ EvDescribe job :: (if is_completed fin then [EvPrint "Done!"] else []) /\
  queries (log (snd r)) = queries (log st) + 1 /\
  sleeps (log (snd r)) = sleeps (log st) /\
  (is_failed fin = true -> fst r = Raised (RuntimeError "Compilation failed")) /\
  (is_completed fin = true ->
   forall artifacts loc,
     fin !! "ModelArtifacts" = Some (VDict artifacts) ->
     artifacts !! "S3ModelArtifacts" = Some loc ->
     r = (Normal tt,
          State (VDict fin) loc (log st ++ [EvDescribe job; EvPrint "Done!"]))).
Proof.
  intros H. cbv zeta.
  change (Returns fin :: rest) with (List.map Returns ([] ++ [fin]) ++ rest).
  apply orb_true_iff in H as [Hc|Hf].
  - assert (is_failed fin = false) as Hnf.
    { apply observes_status in Hc as (v & Hs & Hv).
      unfold is_failed, observes. rewrite Hs, Hv. reflexivity. }
    rewrite (wait_completed job [] fin rest st eq_refl Hc).
    rewrite Hc, Hnf, extract_artifact_log. cbn [log polled length app].
    split; [reflexivity|].
    rewrite queries_app, sleeps_app.
    change (queries [EvDescribe job; EvPrint "Done!"]) with 1.
    change (sleeps [EvDescribe job; EvPrint "Done!"]) with 0.
    split; [lia|]. split; [lia|].
    split; [discriminate|]. intros _ artifacts loc Ha Hl.
    apply (extract_artifact_found fin artifacts loc); [reflexivity | exact Ha | exact Hl].
  - assert (is_completed fin = false) as Hnc.
    { apply observes_status in Hf as (v & Hs & Hv).
      unfold is_completed, observes. rewrite Hs, Hv. reflexivity. }
    rewrite (wait_raises _ _ _ _ _ (while_true_failed job [] fin rest st eq_refl Hf)).
    rewrite Hnc. cbn [fst snd log polled length app].
    split; [reflexivity|].
    rewrite queries_app, sleeps_app. cbn. split; [lia|]. split; [lia|].
    split; [reflexivity | discriminate].
Qed.

Lemma terminal_first_status_witness :
  (wait "job" [Returns (completed_at "s3://bucket/output/model.tar")]
     (initial "bucket" "job") =
   (Normal tt,
    State (VDict (completed_at "s3://bucket/output/model.tar"))
          (VStr "s3://bucket/output/model.tar")
          [EvDescribe "job"; EvPrint "Done!"])) /\
  (let r :=
     wait "job" [Returns (with_status "FAILED"); Returns (with_status "COMPLETED")]
       (initial "bucket" "job") in
   fst r = Raised (RuntimeError "Compilation failed") /\
   log (snd r) = [EvDescribe "job"]).
Proof.
  split.
  - pose proof (terminal_first_status "job"
                  (completed_at "s3://bucket/output/model.tar") []
                  (initial "bucket" "job") eq_refl)
      as (_ & _ & _ & _ & Hdone).
    exact (Hdone eq_refl {[ "S3ModelArtifacts" := VStr "s3://bucket/output/model.tar" ]}
             (VStr "s3://bucket/output/model.tar") eq_refl eq_refl).
  - pose proof (terminal_first_status "job" (with_status "FAILED")
                  [Returns (with_status "COMPLETED")] (initial "bucket" "job") eq_refl)
      as (Hlog & _ & _ & Hfail & _).
    split; [exact (Hfail eq_refl) | exact Hlog].
Defined.

(** The loop looks at a response only through the class of its status:
    responses of pairwise the same class drive it the same way. *)
Lemma while_true_same_classes job s1 :
  forall s2 st1 st2,
    same_classes s1 s2 = true ->
    log st1 = log st2 ->
    fst (while_true job (List.map Returns s1) st1) =
      fst (while_true job (List.map Returns s2) st2) /\
    log (snd (while_true job (List.map Returns s1) st1)) =
      log (snd (while_true job (List.map Returns s2) st2)).
Proof.
  induction s1 as [|r1 t1 IH]; intros [|r2 t2] st1 st2 H Hlog; try discriminate.
  - cbn. rewrite Hlog. split; reflexivity.
  - cbn [same_classes] in H.
    destruct (status r1) as [v1|] eqn:E1; [|discriminate].
    destruct (status r2) as [v2|] eqn:E2; [|discriminate].
    apply andb_true_iff in H as [Hc Ht]. apply class_eqb_eq in Hc.
    assert (observes (classify v1) r1 = true) as H1
      by (apply observes_status; eauto).
    assert (observes (classify v1) r2 = true) as H2
      by (apply observes_status; eauto).
    cbn [List.map while_true]. unfold bind.
    destruct (classify v1).
    + rewrite (loop_body_break _ _ _ H1), (loop_body_break _ _ _ H2).
      cbn. rewrite Hlog. split; reflexivity.
    + rewrite (loop_body_failed _ _ _ H1), (loop_body_failed _ _ _ H2).
      cbn. rewrite Hlog. split; reflexivity.
    + rewrite (loop_body_continue _ _ _ H1), (loop_body_continue _ _ _ H2).
      apply (IH t2); [exact Ht | cbn; rewrite Hlog; reflexivity].
Qed.

(** C7. The loop does not check that the statuses it observes follow one
    another in a legal order; it compares each with the two terminal values
    and nothing else. Two sequences of responses whose statuses have pairwise
    the same class (terminal success, terminal failure, other) make the loop
    end the same way (break, failure error, or still waiting) and make the
    wait produce the same events, so the same number of queries and of
    sleeps, whatever the order of the statuses in either sequence. *)
Theorem same_classes_same_behaviour job s1 s2 st :
  same_classes s1 s2 = true ->
  fst (while_true job (List.map Returns s1) st) =
    fst (while_true job (List.map Returns s2) st) /\
  log (snd (wait job (List.map Returns s1) st)) =
    log (snd (wait job (List.map Returns s2) st)) /\
  queries (log (snd (wait job (List.map Returns s1) st))) =
    queries (log (snd (wait job (List.map Returns s2) st))) /\
  sleeps (log (snd (wait job (List.map Returns s1) st))) =
    sleeps (log (snd (wait job (List.map Returns s2) st))).
Proof.
  intros H.
  destruct (while_true_same_classes job s1 s2 st st H eq_refl) as [Hfst Hlog].
  assert (log (snd (wait job (List.map Returns s1) st)) =
          log (snd (wait job (List.map Returns s2) st))) as Hw
    by (rewrite !wait_log, Hfst, Hlog; reflexivity).
  rewrite Hw. repeat split; assumption.
Qed.

Lemma same_classes_same_behaviour_witness :
  let s1 := [with_status "INPROGRESS"; with_status "STARTING";
             with_status "STOPPED"; with_status "INPROGRESS";
             with_status "FAILED"; with_status "COMPLETED"] in
  let s2 := [with_status "STARTING"; with_status "INPROGRESS";
             with_status "INPROGRESS"; with_status "INPROGRESS";
             failed_because "out of memory";
             completed_at "s3://bucket/output/model.tar"] in
  let st := initial "bucket" "job" in
  fst (while_true "job" (List.map Returns s1) st) =
    fst (while_true "job" (List.map Returns s2) st) /\
  log (snd (wait "job" (List.map Returns s1) st)) =
    log (snd (wait "job" (List.map Returns s2) st)) /\
  queries (log (snd (wait "job" (List.map Returns s1) st))) =
    queries (log (snd (wait "job" (List.map Returns s2) st))) /\
  sleeps (log (snd (wait "job" (List.map Returns s1) st))) =
    sleeps (log (snd (wait "job" (List.map Returns s2) st))).
Proof.
  cbv zeta.
  apply (same_classes_same_behaviour "job"
           [with_status "INPROGRESS"; with_status "STARTING";
            with_status "STOPPED"; with_status "INPROGRESS";
            with_status "FAILED"; with_status "COMPLETED"]
           [with_status "STARTING"; with_status "INPROGRESS";
            with_status "INPROGRESS"; with_status "INPROGRESS";
            failed_because "out of memory";
             completed_at "s3://bucket/output/model.tar"]
           (initial "bucket" "job")).
  reflexivity.
Defined.

(** No function reads the job name off the error of a failed wait: jobs
    with different names fail with the same error. *)
Lemma failure_error_determines_no_job :
  ~ (exists job_of : exn -> string,
       forall job resp st e,
         is_failed resp = true ->
         fst (wait job [Returns resp] st) = Raised e ->
         job_of e = job).
Proof.
  intros (job_of & H).
  pose proof (H "job-a" (with_status "FAILED") (initial "bucket" "job-a") _
                eq_refl eq_refl) as Ha.
  pose proof (H "job-b" (with_status "FAILED") (initial "bucket" "job-b") _
                eq_refl eq_refl) as Hb.
  rewrite Ha in Hb. discriminate.
Qed.

(** Two failed jobs with different names and different last responses
    end the wait with one and the same error object, whose only argument is
    the message: the error carries neither the job name nor the response. *)
Lemma failure_error_same_for_different_jobs :
  fst (wait "job-a" [Returns (failed_because "out of memory")]
         (initial "bucket" "job-a")) =
    Raised (Exn "RuntimeError" [VStr "Compilation failed"]) /\
  fst (wait "job-b" [Returns (failed_because "unsupported operator")]
         (initial "bucket" "job-b")) =
    Raised (Exn "RuntimeError" [VStr "Compilation failed"]) /\
  "job-a" <> "job-b" /\
  failed_because "out of memory" <> failed_because "unsupported operator" /\
  ~ carries (Exn "RuntimeError" [VStr "Compilation failed"]) (VStr "job-a") /\
  ~ carries (Exn "RuntimeError" [VStr "Compilation failed"])
      (VDict (failed_because "out of memory")).
Proof.
  split; [vm_compute; reflexivity|]. split; [vm_compute; reflexivity|].
  split; [discriminate|]. split.
  - intros H. apply (f_equal (fun m => m !! "FailureReason")) in H.
    vm_compute in H. discriminate.
  - unfold carries. cbn. split; intros [H|[]]; discriminate.
Qed.

(** C2, as the code has it. When the statuses observed are non-terminal up
    to a last one that is the terminal failure, the wait raises a
    [RuntimeError] whose only argument is the fixed message
    ['Compilation failed'], the same for every job and every response. The
    last response is not in the error; it stays in the global [response]. *)
Theorem wait_failure_raises_fixed_error job pre fin rest st :
  forallb is_running pre = true ->
  is_failed fin = true ->
  wait job (List.map Returns (pre ++ [fin]) ++ rest) st =
    (Raised (Exn "RuntimeError" [VStr "Compilation failed"]),
     State (VDict fin) (compiled_model_path st)
           (log st ++ polled job (length pre) ++ [EvDescribe job])).
Proof.
  intros Hp Hf.
  apply wait_raises, (while_true_failed _ _ _ rest st Hp Hf).
Qed.

Lemma wait_failure_raises_fixed_error_witness :
  wait "job-a"
    (List.map Returns
       ([with_status "INPROGRESS"] ++ [failed_because "out of memory"]) ++ [])
    (initial "bucket" "job-a") =
  (Raised (Exn "RuntimeError" [VStr "Compilation failed"]),
   State (VDict (failed_because "out of memory"))
         (compiled_model_path (initial "bucket" "job-a"))
         (log (initial "bucket" "job-a") ++ polled "job-a" 1 ++ [EvDescribe "job-a"])).
Proof.
  apply (wait_failure_raises_fixed_error "job-a" [with_status "INPROGRESS"]
           (failed_because "out of memory") [] (initial "bucket" "job-a"));
    reflexivity.
Defined.

Lemma wait_sleep_durations job script st :
  exists n, n <= length script /\
    sleep_durations (log (snd (wait job script st))) =
      sleep_durations (log st) ++ List.repeat 30%Z n.
Proof.
  destruct (wait_log_shape job script st) as (n & tail & Hn & Ht & Hlog).
  exists n. split; [exact Hn|].
  rewrite Hlog, !sleep_durations_app, sleep_durations_polled.
  destruct Ht as [-> | ->]; cbn; rewrite app_nil_r; reflexivity.
Qed.

(** No job name, no answers of the service and no values of the globals
    make the wait sleep for a duration other than 30: the duration is not an
    input of the code. *)
Lemma sleep_interval_is_not_configurable :
  ~ (exists job script r p d,
       d <> 30%Z /\
       In d (sleep_durations (log (snd (wait job script (State r p [])))))).
Proof.
  intros (job & script & r & p & d & Hd & Hin).
  destruct (wait_sleep_durations job script (State r p [])) as (n & _ & H).
  rewrite H in Hin. cbn in Hin. apply List.repeat_spec in Hin. congruence.
Qed.

(** C6, as the code has it. The sleep between two consecutive queries is
    the literal [time.sleep(30)]: against any answers of the service, the
    events of the wait are a number of rounds of query, message, sleep of 30
    seconds, then a last query and at most the closing message, and the
    durations passed to [time.sleep] are all 30. *)
Theorem sleep_interval_is_thirty job script st :
  exists n tail, n <= length script /\
    (tail = [] \/ tail = [EvPrint "Done!"]) /\
    log (snd (wait job script st)) =
      log st ++ polled job n ++ EvDescribe job :: tail /\
    sleep_durations (log (snd (wait job script st))) =
      sleep_durations (log st) ++ List.repeat 30%Z n.
Proof.
  destruct (wait_log_shape job script st) as (n & tail & Hn & Ht & Hlog).
  exists n, tail. split; [exact Hn|]. split; [exact Ht|]. split; [exact Hlog|].
  rewrite Hlog, !sleep_durations_app, sleep_durations_polled.
  destruct Ht as [-> | ->]; cbn; rewrite app_nil_r; reflexivity.
Qed.

(** ** What ends the wait, for any answers of the service *)

(** Any list of answers is a run of non-terminal responses, alone or
    followed by a decisive answer. *)
Lemma script_decompose script :
  (exists pre, script = List.map Returns pre /\ forallb is_running pre = true) \/
  (exists pre a rest,
     script = List.map Returns pre ++ a :: rest /\
     forallb is_running pre = true /\ decisive a = true).
Proof.
  induction script as [|a script IH].
  - left. exists []. split; reflexivity.
  - destruct (decisive a) eqn:Ha.
    + right. exists [], a, script.
      split; [reflexivity|]. split; [reflexivity | exact Ha].
    + destruct a as [r|e]; [|discriminate]. cbn in Ha.
      apply negb_false_iff in Ha.
      destruct IH as [(pre & -> & Hp)|(pre & b & rest & -> & Hp & Hb)].
      * left. exists (r :: pre). split; [reflexivity|]. cbn. rewrite Ha, Hp.
        reflexivity.
      * right. exists (r :: pre), b, rest. split; [reflexivity|].
        split; [|exact Hb]. cbn. rewrite Ha, Hp. reflexivity.
Qed.

(** How the loop ends on a decisive answer after non-terminal ones,
    whatever comes after it. *)
Lemma while_true_decisive_cases job pre a st :
  forallb is_running pre = true ->
  decisive a = true ->
  let l := log st ++ polled job (length pre) ++ [EvDescribe job] in
  let r rest := while_true job (List.map Returns pre ++ a :: rest) st in
  (exists e, a = Raises e /\
     forall rest,
       r rest =
         (Raised e,
          State (last_response pre (response st)) (compiled_model_path st) l)) \/
  (exists resp, a = Returns resp /\ status resp = None /\
     forall rest,
       r rest =
         (Raised (KeyError "CompilationJobStatus"),
          State (VDict resp) (compiled_model_path st) l)) \/
  (exists resp, a = Returns resp /\ is_completed resp = true /\
     forall rest,
       r rest = (Normal tt, State (VDict resp) (compiled_model_path st) l)) \/
  (exists resp, a = Returns resp /\ is_failed resp = true /\
     forall rest,
       r rest =
         (Raised (RuntimeError "Compilation failed"),
          State (VDict resp) (compiled_model_path st) l)).
Proof.
  intros Hp Ha. cbv zeta. destruct a as [resp|e].
  - destruct (response_cases resp) as [H|[H|[H|H]]].
    + right. left. exists resp. split; [reflexivity|]. split; [exact H|].
      intros rest. rewrite <- script_split.
      apply (while_true_no_status _ _ _ _ _ Hp H).
    + cbn in Ha. rewrite H in Ha. discriminate.
    + right. right. left. exists resp. split; [reflexivity|]. split; [exact H|].
      intros rest. rewrite <- script_split.
      apply (while_true_completed _ _ _ _ _ Hp H).
    + right. right. right. exists resp. split; [reflexivity|]. split; [exact H|].
      intros rest. rewrite <- script_split.
      apply (while_true_failed _ _ _ _ _ Hp H).
  - left. exists e. split; [reflexivity|]. intros rest.
    apply (while_true_query_raises _ _ _ _ _ Hp).
Qed.

(** The extraction never waits for the service. *)
Lemma extract_artifact_cases st :
  (exists st', extract_artifact st = (Normal tt, st')) \/
  (exists e, extract_artifact st = (Raised e, st)).
Proof.
  step_cell. destruct (response st) as [| | | |d]; try (right; eauto; fail).
  destruct (d !! "ModelArtifacts") as [a|]; [|right; eauto].
  destruct a as [| | | |d']; try (right; eauto; fail). cbn.
  destruct (d' !! "S3ModelArtifacts"); [left | right]; eauto.
Qed.

Lemma wait_pending_inv job script st :
  fst (wait job script st) = Pending ->
  fst (while_true job script st) = Pending.
Proof.
  unfold wait, bind at 1.
  destruct (while_true job script st) as [[[]|e|] st']; cbn [fst];
    [|discriminate|reflexivity].
  unfold bind, print, emit.
  match goal with |- context [extract_artifact ?s] =>
    destruct (extract_artifact_cases s) as [(s' & ->)|(e & ->)]
  end; discriminate.
Qed.

(** How the wait ends on a decisive answer after non-terminal ones,
    whatever comes after it. *)
Lemma wait_decisive_cases job pre a st :
  forallb is_running pre = true ->
  decisive a = true ->
  let l := log st ++ polled job (length pre) ++ [EvDescribe job] in
  let r rest := wait job (List.map Returns pre ++ a :: rest) st in
  (exists e, a = Raises e /\
     forall rest,
       r rest =
         (Raised e,
          State (last_response pre (response st)) (compiled_model_path st) l)) \/
  (exists resp, a = Returns resp /\ status resp = None /\
     forall rest,
       r rest =
         (Raised (KeyError "CompilationJobStatus"),
          State (VDict resp) (compiled_model_path st) l)) \/
  (exists resp, a = Returns resp /\ is_completed resp = true /\
     forall rest,
       r rest =
         extract_artifact
           (State (VDict resp) (compiled_model_path st)
                  (log st ++ polled job (length pre) ++
                   [EvDescribe job; EvPrint "Done!"]))) \/
  (exists resp, a = Returns resp /\ is_failed resp = true /\
     forall rest,
       r rest =
         (Raised (RuntimeError "Compilation failed"),
          State (VDict resp) (compiled_model_path st) l)).
Proof.
  intros Hp Ha. cbv zeta.
  destruct (while_true_decisive_cases job pre a st Hp Ha)
    as [(e & -> & H)|[(resp & -> & Hs & H)|[(resp & -> & Hc & H)|(resp & -> & Hf & H)]]].
  - left. exists e. split; [reflexivity|]. intros rest. apply wait_raises, H.
  - right. left. exists resp. split; [reflexivity|]. split; [exact Hs|].
    intros rest. apply wait_raises, H.
  - right. right. left. exists resp. split; [reflexivity|]. split; [exact Hc|].
    intros rest. rewrite <- script_split. apply (wait_completed _ _ _ _ _ Hp Hc).
  - right. right. right. exists resp. split; [reflexivity|]. split; [exact Hf|].
    intros rest. apply wait_raises, H.
Qed.

(** X1. While every answer so far reports a
    non-terminal status the wait is blocked in its next query, and only then:
    any other answer, be it a terminal status, a response without status or
    an error of the query, ends the wait. *)
Theorem wait_pending_iff job script st :
  fst (wait job script st) = Pending <->
  exists pre, script = List.map Returns pre /\ forallb is_running pre = true.
Proof.
  split.
  - intros H. apply wait_pending_inv in H.
    destruct (script_decompose script) as [Hl|(pre & a & rest & -> & Hp & Ha)];
      [exact Hl|].
    exfalso. revert H.
    destruct (while_true_decisive_cases job pre a st Hp Ha)
      as [(e & _ & E)|[(resp & _ & _ & E)|[(resp & _ & _ & E)|(resp & _ & _ & E)]]];
      rewrite E; discriminate.
  - intros (pre & -> & Hp).
    rewrite (wait_pending _ _ _ _ (while_true_unanswered _ _ st Hp)). reflexivity.
Qed.

(** X2. The wait ends normally only when it has seen the terminal success:
    the answers then are non-terminal responses up to a response that reports
    COMPLETED and holds a [ModelArtifacts] dictionary with an
    [S3ModelArtifacts] entry, and that response is what [response] holds and
    that entry is what [compiled_model_path] holds at the end. *)
Theorem wait_normal_only_after_completed job script st :
  fst (wait job script st) = Normal tt ->
  exists pre fin rest artifacts,
    script = List.map Returns pre ++ Returns fin :: rest /\
    forallb is_running pre = true /\
    is_completed fin = true /\
    fin !! "ModelArtifacts" = Some (VDict artifacts) /\
    artifacts !! "S3ModelArtifacts" =
      Some (compiled_model_path (snd (wait job script st))) /\
    response (snd (wait job script st)) = VDict fin.
Proof.
  intros H.
  destruct (script_decompose script) as [(pre & -> & Hp)|(pre & a & rest & -> & Hp & Ha)].
  - rewrite (wait_pending _ _ _ _ (while_true_unanswered _ _ st Hp)) in H.
    discriminate.
  - destruct (wait_decisive_cases job pre a st Hp Ha)
      as [(e & _ & E)|[(resp & _ & _ & E)|[(resp & -> & Hc & E)|(resp & _ & _ & E)]]];
      rewrite (E rest) in H |- *; try discriminate.
    exists pre, resp, rest. revert H. step_cell.
    destruct (resp !! "ModelArtifacts") as [v|]; [|discriminate].
    destruct v as [| | | |d]; try discriminate. cbn.
    destruct (d !! "S3ModelArtifacts") as [loc|] eqn:El; [|discriminate].
    intros _. exists d. cbn. repeat split; assumption.
Qed.

Lemma wait_normal_only_after_completed_witness :
  exists pre fin rest artifacts,
    [Returns (with_status "INPROGRESS");
     Returns (completed_at "s3://bucket/output/model.tar");
     Returns (with_status "FAILED")] =
      List.map Returns pre ++ Returns fin :: rest /\
    forallb is_running pre = true /\
    is_completed fin = true /\
    fin !! "ModelArtifacts" = Some (VDict artifacts) /\
    artifacts !! "S3ModelArtifacts" =
      Some (compiled_model_path
              (snd (wait "job"
                      [Returns (with_status "INPROGRESS");
                       Returns (completed_at "s3://bucket/output/model.tar");
                       Returns (with_status "FAILED")]
                      (initial "bucket" "job")))) /\
    response
      (snd (wait "job"
              [Returns (with_status "INPROGRESS");
               Returns (completed_at "s3://bucket/output/model.tar");
               Returns (with_status "FAILED")]
              (initial "bucket" "job"))) = VDict fin.
Proof.
  apply (wait_normal_only_after_completed "job"
           [Returns (with_status "INPROGRESS");
            Returns (completed_at "s3://bucket/output/model.tar");
            Returns (with_status "FAILED")]
           (initial "bucket" "job")).
  reflexivity.
Defined.

(** X3. Unless the wait ends normally it leaves [compiled_model_path] as
    it was: after the failure error, a missing field, an error of a query, or
    while still waiting, the global still holds the output location built
    before the loop. *)
Theorem wait_keeps_path_unless_normal job script st :
  fst (wait job script st) <> Normal tt ->
  compiled_model_path (snd (wait job script st)) = compiled_model_path st.
Proof.
  intros H.
  destruct (script_decompose script) as [(pre & -> & Hp)|(pre & a & rest & -> & Hp & Ha)].
  - rewrite (wait_pending _ _ _ _ (while_true_unanswered _ _ st Hp)). reflexivity.
  - destruct (wait_decisive_cases job pre a st Hp Ha)
      as [(e & _ & E)|[(resp & _ & _ & E)|[(resp & -> & Hc & E)|(resp & _ & _ & E)]]];
      rewrite (E rest) in H |- *; try reflexivity.
    match goal with |- context [extract_artifact ?s] =>
      destruct (extract_artifact_cases s) as [(s' & Es)|(e & Es)]
    end; rewrite Es in H |- *; [|reflexivity].
    exfalso. apply H. reflexivity.
Qed.

Lemma wait_keeps_path_unless_normal_witness :
  compiled_model_path
    (snd (wait "job"
            [Returns (with_status "INPROGRESS"); Returns (with_status "COMPLETED")]
            (initial "bucket" "job"))) =
  compiled_model_path (initial "bucket" "job").
Proof.
  apply (wait_keeps_path_unless_normal "job"
           [Returns (with_status "INPROGRESS"); Returns (with_status "COMPLETED")]
           (initial "bucket" "job")).
  vm_compute. discriminate.
Defined.

(** X4. Once the wait has ended, by returning or by raising, nothing the
    service would answer afterwards matters: with any further answers added
    to those it has consumed, the wait gives the same outcome, the same
    globals and the same events. *)
Theorem wait_ignores_later_answers job script more st :
  fst (wait job script st) <> Pending ->
  wait job (script ++ more) st = wait job script st.
Proof.
  intros H.
  destruct (script_decompose script) as [(pre & -> & Hp)|(pre & a & rest & -> & Hp & Ha)].
  - exfalso. apply H.
    rewrite (wait_pending _ _ _ _ (while_true_unanswered _ _ st Hp)). reflexivity.
  - rewrite <- app_assoc. cbn [app].
    destruct (wait_decisive_cases job pre a st Hp Ha)
      as [(e & _ & E)|[(resp & _ & _ & E)|[(resp & _ & _ & E)|(resp & _ & _ & E)]]];
      rewrite (E rest), (E (rest ++ more)); reflexivity.
Qed.

Lemma wait_ignores_later_answers_witness :
  wait "job"
    ([Returns (with_status "INPROGRESS"); Returns (with_status "FAILED")] ++
     [Returns (completed_at "s3://bucket/output/model.tar")])
    (initial "bucket" "job") =
  wait "job" [Returns (with_status "INPROGRESS"); Returns (with_status "FAILED")]
    (initial "bucket" "job").
Proof.
  apply (wait_ignores_later_answers "job"
           [Returns (with_status "INPROGRESS"); Returns (with_status "FAILED")]
           [Returns (completed_at "s3://bucket/output/model.tar")]
           (initial "bucket" "job")).
  vm_compute. discriminate.
Defined.

(** X5. The errors the wait can raise are these and no others: an error
    that a status query of the service raised, the failure error, the
    [KeyError] of one of the three keys the cell subscripts with, or a
    [TypeError] from subscripting a [ModelArtifacts] value that is not a
    dictionary. *)
Theorem wait_raises_only job script st e :
  fst (wait job script st) = Raised e ->
  In (Raises e) script \/
  e = RuntimeError "Compilation failed" \/
  e = KeyError "CompilationJobStatus" \/
  e = KeyError "ModelArtifacts" \/
  e = KeyError "S3ModelArtifacts" \/
  exn_class e = "TypeError".
Proof.
  intros H.
  destruct (script_decompose script) as [(pre & -> & Hp)|(pre & a & rest & -> & Hp & Ha)].
  - rewrite (wait_pending _ _ _ _ (while_true_unanswered _ _ st Hp)) in H.
    discriminate.
  - destruct (wait_decisive_cases job pre a st Hp Ha)
      as [(e' & -> & E)|[(resp & _ & _ & E)|[(resp & -> & Hc & E)|(resp & _ & _ & E)]]];
      rewrite (E rest) in H.
    + injection H as <-. left. apply in_or_app. right. left. reflexivity.
    + injection H as <-. auto.
    + revert H. step_cell.
      destruct (resp !! "ModelArtifacts") as [v|]; [|intros [= <-]; auto 6].
      destruct v as [| | | |d]; try (intros [= <-]; do 5 right; reflexivity).
      cbn. destruct (d !! "S3ModelArtifacts"); [discriminate|].
      intros [= <-]. auto 6.
    + injection H as <-. auto.
Qed.

Lemma wait_raises_only_witness :
  In (Raises (Exn "ThrottlingException" [VStr "Rate exceeded"]))
     [Returns (with_status "INPROGRESS");
      Raises (Exn "ThrottlingException" [VStr "Rate exceeded"])] \/
  Exn "ThrottlingException" [VStr "Rate exceeded"] =
    RuntimeError "Compilation failed" \/
  Exn "ThrottlingException" [VStr "Rate exceeded"] =
    KeyError "CompilationJobStatus" \/
  Exn "ThrottlingException" [VStr "Rate exceeded"] = KeyError "ModelArtifacts" \/
  Exn "ThrottlingException" [VStr "Rate exceeded"] = KeyError "S3ModelArtifacts" \/
  exn_class (Exn "ThrottlingException" [VStr "Rate exceeded"]) = "TypeError".
Proof.
  apply (wait_raises_only "job"
           [Returns (with_status "INPROGRESS");
            Raises (Exn "ThrottlingException" [VStr "Rate exceeded"])]
           (initial "bucket" "job")).
  reflexivity.
Defined.

Lemma total_sleep_app l1 l2 :
  total_sleep (l1 ++ l2) = (total_sleep l1 + total_sleep l2)%Z.
Proof.
  unfold total_sleep. rewrite sleep_durations_app.
  induction (sleep_durations l1) as [|d l IH]; cbn; [reflexivity|].
  rewrite IH. lia.
Qed.

Lemma total_sleep_polled job n : total_sleep (polled job n) = (30 * Z.of_nat n)%Z.
Proof.
  unfold total_sleep. rewrite sleep_durations_polled.
  induction n as [|n IH]; [reflexivity|].
  cbn [List.repeat List.fold_right]. rewrite IH. lia.
Qed.

(** X6. Against any answers of the service and however the wait ends, the
    time it sleeps is 30 seconds for every query but the last: the sleeps add
    up to 30 times one less than the number of queries it issued, and it
    issues at least one query. *)
Theorem wait_total_sleep job script st :
  let l := log (snd (wait job script st)) in
  queries (log st) + 1 <= queries l /\
  total_sleep l =
    (total_sleep (log st) +
     30 * (Z.of_nat (queries l) - Z.of_nat (queries (log st)) - 1))%Z.
Proof.
  cbv zeta.
  destruct (wait_log_shape job script st) as (n & tail & _ & Ht & ->).
  rewrite !queries_app, !total_sleep_app, queries_polled, total_sleep_polled.
  destruct Ht as [-> | ->]; cbn; split; lia.
Qed.

(** X7. A response that reports the terminal success with a
    [ModelArtifacts] entry that is not a dictionary (a string, a number, a
    list, [None]) makes the extraction raise [TypeError], after the loop has
    ended and ['Done!'] has been printed; [compiled_model_path] keeps its
    value. *)
Theorem wait_artifacts_not_a_dict job pre fin rest v st :
  forallb is_running pre = true ->
  is_completed fin = true ->
  fin !! "ModelArtifacts" = Some v ->
  is_dict v = false ->
  exists msg,
    wait job (List.map Returns (pre ++ [fin]) ++ rest) st =
      (Raised (TypeError msg),
       State (VDict fin) (compiled_model_path st)
             (log st ++ polled job (length pre) ++
              [EvDescribe job; EvPrint "Done!"])).
Proof.
  intros Hp Hc Hv Hd. rewrite (wait_completed _ _ _ _ _ Hp Hc).
  step_cell. rewrite Hv.
  destruct v as [| | | |d]; [eauto | eauto | eauto | eauto | discriminate].
Qed.

Lemma wait_artifacts_not_a_dict_witness :
  exists msg,
    wait "job"
      (List.map Returns
         ([] ++ [<[ "ModelArtifacts" := VStr "s3://bucket/output/model.tar" ]>
                   (with_status "COMPLETED")]) ++ [])
      (initial "bucket" "job") =
      (Raised (TypeError msg),
       State (VDict (<[ "ModelArtifacts" := VStr "s3://bucket/output/model.tar" ]>
                       (with_status "COMPLETED")))
             (compiled_model_path (initial "bucket" "job"))
             (log (initial "bucket" "job") ++ polled "job" (length (@nil (gmap string value))) ++
              [EvDescribe "job"; EvPrint "Done!"])).
Proof.
  apply (wait_artifacts_not_a_dict "job" []
           (<[ "ModelArtifacts" := VStr "s3://bucket/output/model.tar" ]>
              (with_status "COMPLETED"))
           [] (VStr "s3://bucket/output/model.tar") (initial "bucket" "job"));
    reflexivity.
Defined.

(** ** The S3 locations of a job *)

Lemma append_cancel_l (p x y : string) :
  (p ++ x)%string = (p ++ y)%string -> x = y.
Proof.
  induction p as [|c p IH]; [auto|].
  change (String c (p ++ x)%string = String c (p ++ y)%string -> x = y).
  intros [= H]. auto.
Qed.

Lemma append_length (x y : string) :
  String.length (x ++ y)%string = String.length x + String.length y.
Proof.
  induction x as [|c x IH]; [reflexivity|].
  change (String.length (String c x ++ y)%string)
    with (S (String.length (x ++ y)%string)).
  rewrite IH. reflexivity.
Qed.

(** Two strings that end in suffixes of the same length and are equal have
    the same front and the same suffix. *)
Lemma append_inj_same_length (x y s1 s2 : string) :
  String.length s1 = String.length s2 ->
  (x ++ s1)%string = (y ++ s2)%string -> x = y /\ s1 = s2.
Proof.
  intros Hlen. revert y.
  induction x as [|c x IH]; intros [|d y] H.
  - split; [reflexivity | exact H].
  - apply (f_equal String.length) in H. rewrite !append_length in H.
    change (String.length (String d y)) with (S (String.length y)) in H.
    change (String.length "") with 0 in H. lia.
  - apply (f_equal String.length) in H. rewrite !append_length in H.
    change (String.length (String c x)) with (S (String.length x)) in H.
    change (String.length "") with 0 in H. lia.
  - change (String c (x ++ s1)%string = String d (y ++ s2)%string) in H.
    injection H as -> H. destruct (IH y H) as [-> ->]. auto.
Qed.

Lemma append_assoc (x y z : string) :
  ((x ++ y) ++ z)%string = (x ++ (y ++ z))%string.
Proof.
  induction x as [|c x IH]; [reflexivity|].
  change (String c ((x ++ y) ++ z)%string = String c (x ++ (y ++ z))%string).
  rewrite IH. reflexivity.
Qed.

(** X8. For one bucket, jobs with different names have different
    locations: the model uploaded for one job, its compiler output location
    and its source archive are never those of another job. *)
Theorem locations_differ_between_jobs bucket job1 job2 :
  job1 <> job2 ->
  model_path bucket job1 <> model_path bucket job2 /\
  output_location bucket job1 <> output_location bucket job2 /\
  source_path bucket job1 <> source_path bucket job2.
Proof.
  intros Hne. unfold model_path, model_key, output_location, source_path, source_key.
  repeat split; intros H;
    do 3 apply append_cancel_l in H;
    apply append_inj_same_length in H as [H _]; auto.
Qed.

Lemma locations_differ_between_jobs_witness :
  model_path "bucket" "TorchVision-ResNet18-Neo-2020-01-01-00-00-00-000" <>
    model_path "bucket" "TorchVision-ResNet18-Neo-2020-01-01-00-00-30-000" /\
  output_location "bucket" "TorchVision-ResNet18-Neo-2020-01-01-00-00-00-000" <>
    output_location "bucket" "TorchVision-ResNet18-Neo-2020-01-01-00-00-30-000" /\
  source_path "bucket" "TorchVision-ResNet18-Neo-2020-01-01-00-00-00-000" <>
    source_path "bucket" "TorchVision-ResNet18-Neo-2020-01-01-00-00-30-000".
Proof.
  apply (locations_differ_between_jobs "bucket"
           "TorchVision-ResNet18-Neo-2020-01-01-00-00-00-000"
           "TorchVision-ResNet18-Neo-2020-01-01-00-00-30-000").
  discriminate.
Defined.

(** X9. The three kinds of location never coincide, whatever the buckets
    and the job names: an uploaded model, a compiler output location and a
    source archive are three different S3 locations, so no upload of the
    notebook overwrites another and none lands on the output location. *)
Theorem locations_of_different_kinds_differ bucket1 job1 bucket2 job2 :
  model_path bucket1 job1 <> output_location bucket2 job2 /\
  model_path bucket1 job1 <> source_path bucket2 job2 /\
  source_path bucket1 job1 <> output_location bucket2 job2.
Proof.
  unfold model_path, model_key, output_location, source_path, source_key.
  repeat split; intros H; apply append_cancel_l in H.
  - change "/model/model.tar.gz" with ("/model/model.tar.g" ++ "z")%string in H.
    change "/output" with ("/outpu" ++ "t")%string in H.
    rewrite <- !append_assoc in H.
    apply append_inj_same_length in H as [_ H]; [discriminate | reflexivity].
  - change "/model/model.tar.gz" with ("/model/" ++ "model.tar.gz")%string in H.
    change "/source/sourcedir.tar.gz"
      with ("/source/sour" ++ "cedir.tar.gz")%string in H.
    rewrite <- !append_assoc in H.
    apply append_inj_same_length in H as [_ H]; [discriminate | reflexivity].
  - change "/source/sourcedir.tar.gz"
      with ("/source/sourcedir.tar.g" ++ "z")%string in H.
    change "/output" with ("/outpu" ++ "t")%string in H.
    rewrite <- !append_assoc in H.
    apply append_inj_same_length in H as [_ H]; [discriminate | reflexivity].
Qed.

(** ** The model record *)


(** X11. The model record points at what the service compiled. When the
    wait has ended normally, the [create_model] request built from the
    globals has as [ModelDataUrl] of its [PrimaryContainer] the
    [S3ModelArtifacts] entry of the last response of the service, and not the
    output location that the globals held before the loop. *)
Theorem model_data_url_is_compiled_artifact
    job pre fin rest artifacts loc st model_name image_uri source role :
  forallb is_running pre = true ->
  is_completed fin = true ->
  fin !! "ModelArtifacts" = Some (VDict artifacts) ->
  artifacts !! "S3ModelArtifacts" = Some loc ->
  let st' := snd (wait job (List.map Returns (pre ++ [fin]) ++ rest) st) in
  exists container,
    create_model_kwargs model_name image_uri source role st' !! "PrimaryContainer" =
      Some (VDict container) /\
    container !! "ModelDataUrl" = Some loc.
Proof.
  intros Hp Hf Ha Hl. cbv zeta.
  rewrite (wait_completed _ _ _ _ _ Hp Hf).
  rewrite (extract_artifact_found fin artifacts loc); [|reflexivity|exact Ha|exact Hl].
  cbn [snd]. unfold create_model_kwargs. cbn [compiled_model_path].
  eexists. split; reflexivity.
Qed.

Lemma model_data_url_is_compiled_artifact_witness :
  compiled_model_path (initial "bucket" "job") = VStr "s3://bucket/job/output" /\
  exists container,
    create_model_kwargs "model" "image" (source_path "bucket" "job") "role"
      (snd (wait "job"
              (List.map Returns
                 ([with_status "INPROGRESS"] ++
                  [completed_at "s3://bucket/job/output/model-ml_c5.tar.gz"]) ++ [])
              (initial "bucket" "job")))
      !! "PrimaryContainer" = Some (VDict container) /\
    container !! "ModelDataUrl" =
      Some (VStr "s3://bucket/job/output/model-ml_c5.tar.gz").
Proof.
  split; [reflexivity|].
  apply (model_data_url_is_compiled_artifact "job" [with_status "INPROGRESS"]
           (completed_at "s3://bucket/job/output/model-ml_c5.tar.gz") []
           {[ "S3ModelArtifacts" := VStr "s3://bucket/job/output/model-ml_c5.tar.gz" ]}
           (VStr "s3://bucket/job/output/model-ml_c5.tar.gz")
           (initial "bucket" "job") "model" "image" (source_path "bucket" "job") "role");
    reflexivity.
Defined.

(** ** The comparisons of the loop *)

(** X12. The loop goes round again exactly when the response has a status
    that is neither the string ['COMPLETED'] nor the string ['FAILED']: the
    comparisons are exact, so any other spelling, any other status of the
    service and any value that is not a string keep the loop polling. *)
Theorem loop_continues_iff job resp st :
  fst (loop_body job (Some (Returns resp)) st) = Normal Continue <->
  exists v,
    resp !! "CompilationJobStatus" = Some v /\
    v <> VStr "COMPLETED" /\ v <> VStr "FAILED".
Proof.
  assert (forall v lit, py_eq_str v lit = false <-> v <> VStr lit) as Hne.
  { intros v lit. destruct v as [|s| | |]; cbn;
      try (split; [discriminate | reflexivity]).
    rewrite String.eqb_neq. split; [congruence | intros H E; apply H; congruence]. }
  split.
  - destruct (response_cases resp) as [H|[H|[H|H]]].
    + rewrite (loop_body_no_status _ _ _ H). discriminate.
    + intros _. apply observes_status in H as (v & Hs & Hc).
      apply classify_running in Hc as [Hc Hf].
      exists v. split; [exact Hs|]. split; apply Hne; assumption.
    + rewrite (loop_body_break _ _ _ H). discriminate.
    + rewrite (loop_body_failed _ _ _ H). discriminate.
  - intros (v & Hs & Hc & Hf). apply Hne in Hc, Hf.
    assert (is_running resp = true) as H.
    { apply observes_status. exists v. split; [exact Hs|].
      unfold classify. rewrite Hc, Hf. reflexivity. }
    rewrite (loop_body_continue _ _ _ H). reflexivity.
Qed.

Example lower_case_status_keeps_polling :
  fst (wait "job"
         [Returns (with_status "Completed"); Returns (with_status "completed");
          Returns (with_status "STOPPED");
          Returns {[ "CompilationJobStatus" := VNone ]}]
         (initial "bucket" "job")) = Pending.
Proof. vm_compute. reflexivity. Qed.
